(** * The smd-service packaging manifest (data-services/smd-service/src/setup.py)

    The file consists of a [from setuptools import setup, find_packages]
    statement followed by a single [setup(...)] call.  We embed

    - the module as a small Python syntax tree (statements and expressions
      as they are written in the file);
    - the evaluation of the keyword arguments of [setup] into a package
      descriptor;
    - setuptools' [find_packages] (PackageFinder.find / _find_iter), which
      the manifest calls, with its [fnmatchcase] filters and its directory
      walk over a directory tree;
    - the parsing of the console-script entry-point specification;
    - the PEP 440 ordered comparison used to check [python_requires]. *)

From Stdlib Require Import String Ascii List Bool Arith Lia Permutation.
Import ListNotations.
Local Open Scope string_scope.
Local Open Scope list_scope.
Local Set Warnings "-register-all".

(** ** Python syntax of the manifest *)

Inductive expr : Type :=
  | EStr  : string -> expr                       (* 'literal' *)
  | EName : string -> expr                       (* a variable reference *)
  | EList : list expr -> expr                    (* [e, ...] *)
  | EDict : list (expr * expr) -> expr           (* {k: v, ...} *)
  | ECall : string -> list (string * expr) -> expr.  (* f(kw = e, ...) *)

Inductive stmt : Type :=
  | SImportFrom : string -> list string -> stmt  (* from m import a, b *)
  | SExpr : expr -> stmt.                        (* expression statement *)

(** The keyword arguments of the [setup(...)] call, in source order. *)
Definition setup_kwargs : list (string * expr) :=
  [ ("name", EStr "importer");
    ("version", EStr "0.1.0");
    ("python_requires", EStr ">=3");
    ("packages", ECall "find_packages"
                   [("exclude", EList [EStr "docs"; EStr "tests*"])]);
    ("entry_points", EDict
       [(EStr "console_scripts",
         EList [EStr "glueservice = glueservice.__main__:main"])]);
    ("author", EStr "Marco Peise");
    ("author_email", EStr "mp@ise.tu-berlin.de");
    ("license", EStr "MIT License") ].

(** The whole module [setup.py]. *)
Definition setup_py : list stmt :=
  [ SImportFrom "setuptools" ["setup"; "find_packages"];
    SExpr (ECall "setup" setup_kwargs) ].

(** The source text of the file, line by line (the last line has no
    terminating newline). *)
Definition setup_py_lines : list string :=
  [ "from setuptools import setup, find_packages";
    "";
    "setup(";
    "    name = 'importer',";
    "    version = '0.1.0',";
    "    python_requires = '>=3',";
    "    packages = find_packages(";
    "        exclude = ['docs','tests*']";
    "    ),";
    "    entry_points = {";
    "        'console_scripts': [";
    "            'glueservice = glueservice.__main__:main'";
    "        ]";
    "    },";
    "    author = 'Marco Peise',";
    "    author_email = 'mp@ise.tu-berlin.de',";
    "    license = 'MIT License'";
    ")" ].

(** Keyword lookup in a call's argument list (Python keeps the value of the
    unique keyword; duplicate keywords are a SyntaxError, absent in the
    file). *)
Fixpoint kwarg (k : string) (kws : list (string * expr)) : option expr :=
  match kws with
  | [] => None
  | (k', e) :: kws' => if String.eqb k k' then Some e else kwarg k kws'
  end.

(** ** fnmatch.fnmatchcase

    [fnmatchcase(name, pat)] matches the whole of [name] against the shell
    pattern [pat]: [*] matches any string (dots included), [?] any single
    character, any other character itself.  Bracket classes [[...]] are not
    modelled: no pattern reaching the filter (the manifest's and setuptools'
    ALWAYS_EXCLUDE, ["*"] for include) contains a bracket. *)
Fixpoint fnmatchcase (name pat : string) {struct pat} : bool :=
  match pat with
  | EmptyString => match name with EmptyString => true | _ => false end
  | String c pat' =>
      if Ascii.eqb c "*"%char then
        (fix star (n : string) : bool :=
           fnmatchcase n pat' ||
           match n with EmptyString => false | String _ n' => star n' end) name
      else if Ascii.eqb c "?"%char then
        match name with EmptyString => false | String _ n' => fnmatchcase n' pat' end
      else
        match name with
        | EmptyString => false
        | String c' n' => Ascii.eqb c c' && fnmatchcase n' pat'
        end
  end.

(** [_Filter(patterns)]: called on an item, true iff some pattern matches;
    [item in filter] is literal membership in the pattern tuple. *)
Definition filter_call (pats : list string) (item : string) : bool :=
  existsb (fnmatchcase item) pats.

Definition filter_contains (pats : list string) (item : string) : bool :=
  existsb (String.eqb item) pats.

(** ** setuptools.find_packages = PackageFinder.find *)

Definition ALWAYS_EXCLUDE : list string := ["ez_setup"; "*__pycache__"].

(** A directory: its name, whether it holds an [__init__.py], and its
    subdirectories in the order [os.walk] lists them. *)
Inductive dir : Type :=
  | Dir : string -> bool -> list dir -> dir.

Definition dir_name (d : dir) : string := match d with Dir n _ _ => n end.
Definition dir_has_init (d : dir) : bool := match d with Dir _ b _ => b end.

(** [rel_path.replace(os.path.sep, '.')]: the package name of a directory
    [n] below the package [rel] ([None] for the search root [where]). *)
Definition package_of (rel : option string) (n : string) : string :=
  match rel with None => n | Some p => p ++ "." ++ n end.

Definition has_dot (s : string) : bool :=
  existsb (fun c => Ascii.eqb c "."%char) (list_ascii_of_string s).

(** The tests of the loop body of [_find_iter] for one directory [d]
    below [rel]. *)
Definition skipped (d : dir) : bool :=
  has_dot (dir_name d) || negb (dir_has_init d).

Definition selected (exclude include : list string) (package : string) : bool :=
  filter_call include package && negb (filter_call exclude package).

Definition pruned (exclude : list string) (package : string) : bool :=
  filter_contains exclude (package ++ "*")
  || filter_contains exclude (package ++ ".*").

(** One pass of the [for dir in all_dirs] loop of [_find_iter] at a root:
    the packages yielded and the directories appended to [dirs] (those
    [os.walk] then descends into), in order. *)
Fixpoint scan (exclude include : list string) (rel : option string)
    (all_dirs : list dir) : list string * list dir :=
  match all_dirs with
  | [] => ([], [])
  | d :: ds =>
      let '(ys, kept) := scan exclude include rel ds in
      let package := package_of rel (dir_name d) in
      if skipped d then (ys, kept)
      else
        let ys' := if selected exclude include package then package :: ys else ys in
        if pruned exclude package then (ys', kept) else (ys', d :: kept)
  end.

(** Whether [d] ends up in [dirs], i.e. is descended into by [os.walk]. *)
Definition kept_dir (exclude : list string) (rel : option string) (d : dir) : bool :=
  negb (skipped d) && negb (pruned exclude (package_of rel (dir_name d))).

(** [os.walk(where)] top-down, driving [_find_iter]: the packages yielded
    while processing [root], then the walks of the subdirectories left in
    [dirs], one after the other ([descend] runs over [all_dirs] and walks
    exactly the kept ones, see [scan_kept] below). *)
Fixpoint find_iter (exclude include : list string) (rel : option string)
    (root : dir) {struct root} : list string :=
  match root with
  | Dir _ _ all_dirs =>
      let fix descend (ds : list dir) : list string :=
        match ds with
        | [] => []
        | d :: ds' =>
            (if kept_dir exclude rel d
             then find_iter exclude include (Some (package_of rel (dir_name d))) d
             else [])
            ++ descend ds'
        end in
      fst (scan exclude include rel all_dirs) ++ descend all_dirs
  end.

(** [find_packages(where, exclude, include=('*',))]. *)
Definition find_packages (where_ : dir) (exclude : list string) : list string :=
  find_iter (ALWAYS_EXCLUDE ++ exclude) ["*"] None where_.

(** ** Evaluating the [setup(...)] arguments *)

Inductive pyval : Type :=
  | VStr  : string -> pyval
  | VList : list pyval -> pyval
  | VDict : list (pyval * pyval) -> pyval.

Fixpoint as_str_list (vs : list pyval) : option (list string) :=
  match vs with
  | [] => Some []
  | VStr s :: vs' => option_map (cons s) (as_str_list vs')
  | _ :: _ => None
  end.

Fixpoint lookup_arg (k : string) (args : list (string * pyval)) : option pyval :=
  match args with
  | [] => None
  | (k', v) :: args' => if String.eqb k k' then Some v else lookup_arg k args'
  end.

(** The functions the module imports from setuptools and calls while its
    arguments are evaluated: only [find_packages], with its [exclude]
    keyword ([where] defaults to the current directory, the tree
    [cwd]); any other callee is not modelled ([None]). *)
Definition call_imported (cwd : dir) (f : string) (args : list (string * pyval))
    : option pyval :=
  if String.eqb f "find_packages" then
    let exclude := match lookup_arg "exclude" args with
                   | None => Some []
                   | Some (VList vs) => as_str_list vs
                   | Some _ => None
                   end in
    option_map (fun ex => VList (map VStr (find_packages cwd ex))) exclude
  else None.

Fixpoint all_some {A} (l : list (option A)) : option (list A) :=
  match l with
  | [] => Some []
  | Some x :: l' => option_map (cons x) (all_some l')
  | None :: _ => None
  end.

(** Evaluation of an argument expression; a free variable is a NameError
    ([None]): the file binds no variables. *)
Fixpoint eval (cwd : dir) (e : expr) : option pyval :=
  match e with
  | EStr s => Some (VStr s)
  | EName _ => None
  | EList es => option_map VList (all_some (map (eval cwd) es))
  | EDict kvs =>
      option_map VDict
        (all_some (map (fun kv => match eval cwd (fst kv), eval cwd (snd kv) with
                                  | Some k, Some v => Some (k, v)
                                  | _, _ => None
                                  end) kvs))
  | ECall f kws =>
      match all_some (map (fun kw => option_map (pair (fst kw)) (eval cwd (snd kw))) kws) with
      | Some args => call_imported cwd f args
      | None => None
      end
  end.

(** The package descriptor [setup] records from its keyword arguments. *)
Record descriptor : Type := mkDescriptor {
  d_name : string;
  d_version : string;
  d_python_requires : string;
  d_packages : list string;
  d_entry_points : list (string * list string);  (* group -> specifications *)
  d_author : string;
  d_author_email : string;
  d_license : string
}.

Definition str_arg (args : list (string * pyval)) (k : string) : option string :=
  match lookup_arg k args with Some (VStr s) => Some s | _ => None end.

Definition list_arg (args : list (string * pyval)) (k : string) : option (list string) :=
  match lookup_arg k args with Some (VList vs) => as_str_list vs | _ => None end.

Fixpoint entry_groups (kvs : list (pyval * pyval)) : option (list (string * list string)) :=
  match kvs with
  | [] => Some []
  | (VStr g, VList specs) :: kvs' =>
      match as_str_list specs, entry_groups kvs' with
      | Some ss, Some gs => Some ((g, ss) :: gs)
      | _, _ => None
      end
  | _ :: _ => None
  end.

Definition setup_descriptor (cwd : dir) (kws : list (string * expr)) : option descriptor :=
  match all_some (map (fun kw => option_map (pair (fst kw)) (eval cwd (snd kw))) kws) with
  | None => None
  | Some args =>
      match str_arg args "name", str_arg args "version",
            str_arg args "python_requires", list_arg args "packages",
            lookup_arg "entry_points" args, str_arg args "author",
            str_arg args "author_email", str_arg args "license" with
      | Some n, Some v, Some pr, Some ps, Some (VDict eps), Some a, Some ae, Some l =>
          option_map (fun gs => mkDescriptor n v pr ps gs a ae l) (entry_groups eps)
      | _, _, _, _, _, _, _, _ => None
      end
  end.

(** The descriptor produced by running [setup.py] in the directory [cwd]. *)
Definition manifest (cwd : dir) : option descriptor := setup_descriptor cwd setup_kwargs.

(** Replacing the value of one keyword argument. *)
Fixpoint set_kwarg (k : string) (e : expr) (kws : list (string * expr)) : list (string * expr) :=
  match kws with
  | [] => []
  | (k', e') :: kws' =>
      if String.eqb k k' then (k', e) :: set_kwarg k e kws' else (k', e') :: set_kwarg k e kws'
  end.

(** ** Console scripts

    An entry-point specification [name = module:attr] is read as
    importlib.metadata does: the line is partitioned at the first ['='],
    both sides stripped of whitespace; the value is [module] optionally
    followed by [:attr]. *)

Definition is_space (c : ascii) : bool :=
  Ascii.eqb c " "%char || Ascii.eqb c (ascii_of_nat 9).

Fixpoint lstrip (s : string) : string :=
  match s with
  | String c s' => if is_space c then lstrip s' else s
  | EmptyString => EmptyString
  end.

Definition rev_string (s : string) : string :=
  string_of_list_ascii (rev (list_ascii_of_string s)).

Definition strip (s : string) : string := rev_string (lstrip (rev_string (lstrip s))).

(** [s.partition(c)] when [c] occurs in [s]. *)
Fixpoint partition (c : ascii) (s : string) : option (string * string) :=
  match s with
  | EmptyString => None
  | String c' s' =>
      if Ascii.eqb c c' then Some (EmptyString, s')
      else option_map (fun p => (String c' (fst p), snd p)) (partition c s')
  end.

Record entry_point : Type := mkEntryPoint {
  ep_name : string;
  ep_module : string;
  ep_attr : option string
}.

Definition parse_entry_point (line : string) : option entry_point :=
  match partition "="%char line with
  | None => None
  | Some (n, v) =>
      let v := strip v in
      match partition ":"%char v with
      | None => Some (mkEntryPoint (strip n) v None)
      | Some (m, a) => Some (mkEntryPoint (strip n) (strip m) (Some (strip a)))
      end
  end.

(** The console commands an installer creates from a descriptor: one per
    specification of the [console_scripts] group. *)
Definition console_commands (d : descriptor) : option (list entry_point) :=
  all_some (map parse_entry_point
    (concat (map snd (filter (fun g => String.eqb (fst g) "console_scripts")
                             (d_entry_points d))))).

(** ** python_requires (PEP 440 specifiers, as [packaging] checks them)

    The running interpreter is checked through
    [".".join(map(str, sys.version_info[:3]))], a release-only version,
    modelled as its list of components. *)

Inductive spec_op : Type := OpGe | OpGt | OpLe | OpLt | OpEq | OpNe.

Definition digit_of (c : ascii) : option nat :=
  let n := nat_of_ascii c in
  if (48 <=? n)%nat && (n <=? 57)%nat then Some (n - 48)%nat else None.

(** A run of decimal digits separated by dots, e.g. ["3.11.4"]. *)
Fixpoint parse_release_acc (acc : option nat) (s : string) : option (list nat) :=
  match s with
  | EmptyString => match acc with Some n => Some [n] | None => None end
  | String c s' =>
      if Ascii.eqb c "."%char then
        match acc with
        | Some n => option_map (cons n) (parse_release_acc None s')
        | None => None
        end
      else match digit_of c with
           | Some d => parse_release_acc (Some (10 * match acc with Some n => n | None => 0 end + d)%nat) s'
           | None => None
           end
  end.

Definition parse_release (s : string) : option (list nat) := parse_release_acc None s.

(** The operators [>=], [<=], [==], [!=], [>], [<] followed by a release
    version; other operators ([~=], [===]) and pre, post, dev, local or
    wildcard versions are not modelled ([None]). *)
Definition parse_specifier (s : string) : option (spec_op * list nat) :=
  let s := strip s in
  match s with
  | String ">" (String "=" v) => option_map (pair OpGe) (parse_release (strip v))
  | String "<" (String "=" v) => option_map (pair OpLe) (parse_release (strip v))
  | String "=" (String "=" v) => option_map (pair OpEq) (parse_release (strip v))
  | String "!" (String "=" v) => option_map (pair OpNe) (parse_release (strip v))
  | String ">" v => option_map (pair OpGt) (parse_release (strip v))
  | String "<" v => option_map (pair OpLt) (parse_release (strip v))
  | _ => None
  end.

(** Release segments are compared after padding the shorter with zeros. *)
Definition pad (n : nat) (l : list nat) : list nat := l ++ repeat 0 (n - length l)%nat.

Fixpoint lex (a b : list nat) : comparison :=
  match a, b with
  | x :: a', y :: b' => match Nat.compare x y with Eq => lex a' b' | c => c end
  | [], [] => Eq
  | [], _ :: _ => Lt
  | _ :: _, [] => Gt
  end.

Definition compare_release (a b : list nat) : comparison :=
  let n := Nat.max (length a) (length b) in lex (pad n a) (pad n b).

Definition op_holds (op : spec_op) (c : comparison) : bool :=
  match op, c with
  | OpGe, (Gt | Eq) | OpGt, Gt | OpLe, (Lt | Eq) | OpLt, Lt | OpEq, Eq => true
  | OpNe, (Lt | Gt) => true
  | _, _ => false
  end.

(** [version in SpecifierSet(spec)] for a single specifier. *)
Definition satisfies (spec : string) (version : list nat) : option bool :=
  option_map (fun p => op_holds (fst p) (compare_release version (snd p)))
    (parse_specifier spec).

(** The packages [os.walk] reaches for [find_packages]: every directory
    that passes the [skipped] test, under the same pruning, whether or not
    the [exclude]/[include] filters then select it. *)
Fixpoint reached (exclude : list string) (rel : option string) (root : dir) : list string :=
  match root with
  | Dir _ _ all_dirs =>
      map (fun d => package_of rel (dir_name d)) (filter (fun d => negb (skipped d)) all_dirs)
      ++ concat (map (fun d => if kept_dir exclude rel d
                               then reached exclude (Some (package_of rel (dir_name d))) d
                               else []) all_dirs)
  end.

(** Literal patterns: no [*] and no [?]. *)
Definition literal (pat : string) : bool :=
  forallb (fun c => negb (Ascii.eqb c "*"%char) && negb (Ascii.eqb c "?"%char))
          (list_ascii_of_string pat).

(** Whether a Python value is a string. *)
Definition is_str_lit (e : expr) : bool := match e with EStr _ => true | _ => false end.

(** Expressions whose value does not depend on anything: literals and
    displays of literals. *)
Fixpoint is_constant (e : expr) : bool :=
  match e with
  | EStr _ => true
  | EName _ | ECall _ _ => false
  | EList es => forallb is_constant es
  | EDict kvs => forallb (fun kv => is_constant (fst kv) && is_constant (snd kv)) kvs
  end.

(** Names through which Python code reads or declares environment
    variables. *)
Definition env_names : list string :=
  ["environ"; "os.environ"; "getenv"; "os.getenv"; "os.environ.get";
   "putenv"; "os.putenv"; "environb"; "os.environb"].

Fixpoint env_refs (e : expr) : list string :=
  match e with
  | EStr _ => []
  | EName x => if existsb (String.eqb x) env_names then [x] else []
  | EList es => concat (map env_refs es)
  | EDict kvs => concat (map (fun kv => env_refs (fst kv) ++ env_refs (snd kv)) kvs)
  | ECall f kws =>
      (if existsb (String.eqb f) env_names then [f] else [])
      ++ (if existsb (String.eqb "env") (map fst kws) then ["env"] else [])
      ++ concat (map (fun kw => env_refs (snd kw)) kws)
  end.

Definition stmt_env_refs (st : stmt) : list string :=
  match st with
  | SImportFrom m xs => if String.eqb m "os" then xs else []
  | SExpr e => env_refs e
  end.

(** Replacing the three authorship and license arguments. *)
Definition with_authorship (a e l : string) : list (string * expr) :=
  set_kwarg "license" (EStr l)
    (set_kwarg "author_email" (EStr e) (set_kwarg "author" (EStr a) setup_kwargs)).

(** A small project tree used by the examples below. *)
Definition sample_tree : dir :=
  Dir "src" false
    [ Dir "docs" true [Dir "subpkg" true []];
      Dir "tests" true [Dir "unit" true []];
      Dir "glueservice" true [Dir "__pycache__" false []];
      Dir "ez_setup" true [];
      Dir "testsuite" true [] ].

(** No string occurs twice in the list. *)
Fixpoint distinct (l : list string) : bool :=
  match l with
  | [] => true
  | x :: l' => negb (existsb (String.eqb x) l') && distinct l'
  end.

(** Sibling directories have distinct names, at every level of the tree
    (as on any file system). *)
Fixpoint names_distinct (d : dir) : bool :=
  match d with
  | Dir _ _ ds => distinct (map dir_name ds) && forallb names_distinct ds
  end.

(** Empty, or starting with a dot. *)
Definition dotted (s : string) : Prop :=
  match s with EmptyString => True | String c _ => c = "."%char end.

(** What [reached] lists for one subdirectory [c]: its own package name,
    then the packages below it. *)
Definition group (e : list string) (rel : option string) (c : dir) : list string :=
  (if negb (skipped c) then [package_of rel (dir_name c)] else [])
  ++ (if kept_dir e rel c then reached e (Some (package_of rel (dir_name c))) c else []).


(** ** Lemmas *)

(** Induction over directory trees, with the hypothesis for every
    subdirectory. *)
Fixpoint dir_ind' (P : dir -> Prop)
    (H : forall n b ds, Forall P ds -> P (Dir n b ds)) (d : dir) : P d :=
  match d with
  | Dir n b ds =>
      H n b ds ((fix go (ds : list dir) : Forall P ds :=
                   match ds with
                   | [] => Forall_nil P
                   | d' :: ds' => Forall_cons d' (dir_ind' P H d') (go ds')
                   end) ds)
  end.

Example sample_find_packages :
  find_packages sample_tree ["docs"; "tests*"] = ["glueservice"; "docs.subpkg"].
Proof. reflexivity. Qed.

Example sample_reached :
  reached (ALWAYS_EXCLUDE ++ ["docs"; "tests*"]) None sample_tree
  = ["docs"; "tests"; "glueservice"; "ez_setup"; "testsuite"; "docs.subpkg"].
Proof. reflexivity. Qed.

Lemma scan_yields exclude include rel ds :
  fst (scan exclude include rel ds)
  = filter (selected exclude include)
      (map (fun d => package_of rel (dir_name d)) (filter (fun d => negb (skipped d)) ds)).
Proof.
  induction ds as [| d ds IH]; [reflexivity |].
  simpl. destruct (scan exclude include rel ds) as [ys kept] eqn:E. simpl in IH.
  destruct (skipped d); simpl; [exact IH |].
  destruct (selected exclude include (package_of rel (dir_name d))) eqn:Hs;
    destruct (pruned exclude (package_of rel (dir_name d))); simpl; congruence.
Qed.

(** The directories [_find_iter] leaves in [dirs] are exactly the kept
    ones, in order. *)
Lemma scan_kept exclude include rel ds :
  snd (scan exclude include rel ds) = filter (kept_dir exclude rel) ds.
Proof.
  induction ds as [| d ds IH]; [reflexivity |].
  simpl. destruct (scan exclude include rel ds) as [ys kept] eqn:E. simpl in IH.
  unfold kept_dir at 1.
  destruct (skipped d); simpl; [exact IH |].
  destruct (pruned exclude (package_of rel (dir_name d))); simpl; congruence.
Qed.

Lemma find_iter_Dir exclude include rel n b ds :
  find_iter exclude include rel (Dir n b ds)
  = fst (scan exclude include rel ds)
    ++ concat (map (fun d => if kept_dir exclude rel d
                             then find_iter exclude include (Some (package_of rel (dir_name d))) d
                             else []) ds).
Proof.
  simpl. f_equal. induction ds as [| d ds IH]; simpl; [reflexivity |].
  rewrite IH. reflexivity.
Qed.

(** [_find_iter] yields, in walk order, the reached packages that pass the
    include and exclude filters. *)
Lemma find_iter_filter exclude include root : forall rel,
  find_iter exclude include rel root
  = filter (selected exclude include) (reached exclude rel root).
Proof.
  induction root as [n b ds IH] using dir_ind'. intros rel.
  rewrite find_iter_Dir, scan_yields. simpl. rewrite filter_app. f_equal.
  induction IH as [| d ds Hd Hds IHds]; simpl; [reflexivity |].
  rewrite filter_app, IHds. f_equal.
  destruct (kept_dir exclude rel d); [apply Hd | reflexivity].
Qed.

Lemma ascii_eqb_sym (a b : ascii) : Ascii.eqb a b = Ascii.eqb b a.
Proof.
  destruct (Ascii.eqb_spec a b), (Ascii.eqb_spec b a); congruence.
Qed.

(** A literal pattern matches exactly itself. *)
Lemma fnmatch_literal pat : forall n,
  literal pat = true -> fnmatchcase n pat = String.eqb n pat.
Proof.
  induction pat as [| c pat IH]; intros n Hl.
  - destruct n; reflexivity.
  - unfold literal in Hl. simpl in Hl.
    apply andb_prop in Hl as [Hc Hl]. apply andb_prop in Hc as [Hs Hq].
    apply negb_true_iff in Hs, Hq.
    simpl. rewrite Hs, Hq.
    destruct n as [| c' n]; [reflexivity |].
    simpl. rewrite IH by exact Hl. rewrite ascii_eqb_sym. reflexivity.
Qed.

Lemma fnmatch_star_step n p :
  fnmatchcase n (String "*" p)
  = fnmatchcase n p
    || match n with EmptyString => false | String _ n' => fnmatchcase n' (String "*" p) end.
Proof. destruct n; reflexivity. Qed.

Lemma fnmatch_star_any n : fnmatchcase n "*" = true.
Proof.
  induction n as [| c n IH]; [reflexivity |].
  rewrite fnmatch_star_step, IH. apply orb_true_r.
Qed.

(** ["*" ++ lit] matches the names ending with [lit]. *)
Lemma fnmatch_star_suffix lit n :
  literal lit = true ->
  fnmatchcase n (String "*" lit) = true <-> exists pre, n = (pre ++ lit)%string.
Proof.
  intros Hl. induction n as [| c n IH].
  - rewrite fnmatch_star_step, fnmatch_literal by exact Hl. rewrite orb_false_r.
    split.
    + intros H. apply String.eqb_eq in H. subst. exists EmptyString. reflexivity.
    + intros [pre Hpre]. destruct pre; [| discriminate].
      simpl in Hpre. subst. apply String.eqb_refl.
  - rewrite fnmatch_star_step, fnmatch_literal by exact Hl. rewrite orb_true_iff, IH.
    split.
    + intros [H | [pre Hpre]].
      * apply String.eqb_eq in H. rewrite <- H. exists EmptyString. reflexivity.
      * exists (String c pre). rewrite Hpre. reflexivity.
    + intros [pre Hpre]. destruct pre as [| c' pre].
      * left. simpl in Hpre. rewrite <- Hpre. apply String.eqb_refl.
      * right. exists pre. simpl in Hpre. injection Hpre as _ ->. reflexivity.
Qed.

(** [lit ++ "*"] matches the names starting with [lit]. *)
Lemma fnmatch_prefix_star lit : forall n,
  literal lit = true ->
  fnmatchcase n (lit ++ "*")%string = true <-> exists rest, n = (lit ++ rest)%string.
Proof.
  induction lit as [| c lit IH]; intros n Hl.
  - simpl. split; [intros _; exists n; reflexivity | intros _; apply fnmatch_star_any].
  - unfold literal in Hl. simpl in Hl.
    apply andb_prop in Hl as [Hc Hl]. apply andb_prop in Hc as [Hs Hq].
    apply negb_true_iff in Hs, Hq.
    simpl. rewrite Hs, Hq.
    destruct n as [| c' n].
    + split; [discriminate | intros [rest H]; discriminate].
    + rewrite andb_true_iff, IH by exact Hl. split.
      * intros [Hcc [rest Hr]]. apply Ascii.eqb_eq in Hcc. subst. exists rest. reflexivity.
      * intros [rest Hr]. injection Hr as -> ->. split; [apply Ascii.eqb_refl | exists rest; reflexivity].
Qed.

(** The exclusion filter [find_packages] builds from the manifest's
    [exclude] list. *)
Lemma manifest_exclude_filter p :
  filter_call (ALWAYS_EXCLUDE ++ ["docs"; "tests*"]) p = true
  <-> p = "ez_setup" \/ (exists pre, p = (pre ++ "__pycache__")%string)
      \/ p = "docs" \/ (exists rest, p = ("tests" ++ rest)%string).
Proof.
  unfold filter_call, ALWAYS_EXCLUDE. cbn [app existsb].
  rewrite orb_false_r, !orb_true_iff.
  rewrite (fnmatch_literal "ez_setup") by reflexivity.
  rewrite (fnmatch_literal "docs") by reflexivity.
  rewrite (fnmatch_star_suffix "__pycache__") by reflexivity.
  rewrite (fnmatch_prefix_star "tests" p) by reflexivity.
  rewrite !String.eqb_eq. tauto.
Qed.

Lemma selected_manifest p :
  selected (ALWAYS_EXCLUDE ++ ["docs"; "tests*"]) ["*"] p
  = negb (filter_call (ALWAYS_EXCLUDE ++ ["docs"; "tests*"]) p).
Proof.
  unfold selected. unfold filter_call at 1. cbn [existsb].
  rewrite fnmatch_star_any. reflexivity.
Qed.

Lemma find_packages_manifest cwd :
  find_packages cwd ["docs"; "tests*"]
  = filter (fun p => negb (filter_call (ALWAYS_EXCLUDE ++ ["docs"; "tests*"]) p))
      (reached (ALWAYS_EXCLUDE ++ ["docs"; "tests*"]) None cwd).
Proof.
  unfold find_packages. rewrite find_iter_filter.
  apply filter_ext. apply selected_manifest.
Qed.

Lemma as_str_list_map l : as_str_list (map VStr l) = Some l.
Proof. induction l as [| x l IH]; simpl; [reflexivity | rewrite IH; reflexivity]. Qed.

(** The descriptor the manifest produces in any directory. *)
Lemma manifest_value cwd :
  manifest cwd
  = Some (mkDescriptor "importer" "0.1.0" ">=3" (find_packages cwd ["docs"; "tests*"])
            [("console_scripts", ["glueservice = glueservice.__main__:main"])]
            "Marco Peise" "mp@ise.tu-berlin.de" "MIT License").
Proof.
  unfold manifest, setup_descriptor. cbn.
  rewrite as_str_list_map. reflexivity.
Qed.

Lemma with_authorship_value cwd a e l :
  setup_descriptor cwd (with_authorship a e l)
  = Some (mkDescriptor "importer" "0.1.0" ">=3" (find_packages cwd ["docs"; "tests*"])
            [("console_scripts", ["glueservice = glueservice.__main__:main"])]
            a e l).
Proof.
  unfold with_authorship, setup_descriptor. cbn.
  rewrite as_str_list_map. reflexivity.
Qed.

Lemma lex_zeros l : lex l (repeat 0 (length l)) <> Lt.
Proof.
  induction l as [| x l IH]; simpl; [discriminate |].
  destruct x; simpl; [exact IH | discriminate].
Qed.

Lemma compare_release_3 major rest :
  compare_release (major :: rest) [3]
  = match Nat.compare major 3 with Eq => lex rest (repeat 0 (length rest)) | c => c end.
Proof.
  unfold compare_release, pad. cbn [length].
  replace (Nat.max (S (length rest)) 1) with (S (length rest)) by lia.
  replace (S (length rest) - S (length rest)) with 0 by lia.
  replace (S (length rest) - 1) with (length rest) by lia.
  rewrite app_nil_r. reflexivity.
Qed.

Lemma string_length_app s1 s2 :
  String.length (s1 ++ s2) = String.length s1 + String.length s2.
Proof. induction s1 as [| c s1 IH]; simpl; [reflexivity | rewrite IH; reflexivity]. Qed.

(** ** The claims *)

(** C1: the manifest registers exactly one console command: it is named
    ["glueservice"] and targets [glueservice.__main__:main]; the only
    entry-point group is [console_scripts] and there is no [scripts]
    argument. *)
Theorem console_command_glueservice cwd :
  exists d, manifest cwd = Some d
    /\ console_commands d
       = Some [mkEntryPoint "glueservice" "glueservice.__main__" (Some "main")]
    /\ map fst (d_entry_points d) = ["console_scripts"]
    /\ kwarg "scripts" setup_kwargs = None.
Proof.
  eexists. rewrite manifest_value. split; [reflexivity |].
  repeat split; reflexivity.
Qed.

(** C2: the package name of the manifest is ["importer"]. *)
Theorem manifest_name cwd : option_map d_name (manifest cwd) = Some "importer".
Proof. rewrite manifest_value. reflexivity. Qed.

(** C3 (as stated, refuted): a package directory [ez_setup] is discovered,
    is neither ["docs"] nor matched by ["tests*"], and still is not in the
    distribution, since setuptools always excludes ["ez_setup"]. *)
Lemma find_packages_drops_ez_setup :
  In "ez_setup" (reached (ALWAYS_EXCLUDE ++ ["docs"; "tests*"]) None
                   (Dir "src" false [Dir "ez_setup" true []]))
  /\ "ez_setup" <> "docs"
  /\ ~ (exists rest, "ez_setup" = ("tests" ++ rest)%string)
  /\ ~ In "ez_setup" (find_packages (Dir "src" false [Dir "ez_setup" true []]) ["docs"; "tests*"]).
Proof.
  split; [left; reflexivity |].
  split; [discriminate |].
  split; [intros [rest H]; discriminate H |].
  intros H. destruct H.
Qed.

(** C3 (amended): a discovered package is left out of the distribution iff
    its name is ["docs"], matches ["tests*"], or matches one of setuptools'
    always-excluded patterns ["ez_setup"] and ["*__pycache__"]. *)
Theorem find_packages_exclusion cwd p :
  In p (reached (ALWAYS_EXCLUDE ++ ["docs"; "tests*"]) None cwd) ->
  (~ In p (find_packages cwd ["docs"; "tests*"])
   <-> p = "docs" \/ (exists rest, p = ("tests" ++ rest)%string)
       \/ p = "ez_setup" \/ (exists pre, p = (pre ++ "__pycache__")%string)).
Proof.
  intros Hin. rewrite find_packages_manifest, filter_In.
  assert (Hx := manifest_exclude_filter p).
  destruct (filter_call (ALWAYS_EXCLUDE ++ ["docs"; "tests*"]) p); simpl.
  - split; [intros _; tauto | intros _ [_ H]; discriminate].
  - split; [intros H; exfalso; apply H; split; [exact Hin | reflexivity] |].
    intros H. exfalso. assert (false = true) by (apply Hx; tauto). discriminate.
Qed.

Lemma find_packages_exclusion_witness :
  In "ez_setup" (reached (ALWAYS_EXCLUDE ++ ["docs"; "tests*"]) None sample_tree)
  /\ (~ In "ez_setup" (find_packages sample_tree ["docs"; "tests*"])
      <-> "ez_setup" = "docs" \/ (exists rest, "ez_setup" = ("tests" ++ rest)%string)
          \/ "ez_setup" = "ez_setup" \/ (exists pre, "ez_setup" = (pre ++ "__pycache__")%string)).
Proof.
  split.
  - simpl. right; right; right; left; reflexivity.
  - apply find_packages_exclusion. simpl. right; right; right; left; reflexivity.
Defined.

(** C4: the version is ["0.1.0"], a three-component release, and the
    language requirement is [">=3"]. *)
Theorem manifest_version_requires cwd :
  exists d, manifest cwd = Some d
    /\ d_version d = "0.1.0" /\ parse_release (d_version d) = Some [0; 1; 0]
    /\ d_python_requires d = ">=3"
    /\ parse_specifier (d_python_requires d) = Some (OpGe, [3]).
Proof.
  eexists. rewrite manifest_value. split; [reflexivity |].
  repeat split; reflexivity.
Qed.

(** C5: the name, version, python_requires, author, author_email and
    license arguments are string literals, and the only entry-point
    specification is a string literal of the form [name = module:attr]. *)
Theorem metadata_fields_are_strings :
  forallb (fun k => match kwarg k setup_kwargs with Some e => is_str_lit e | None => false end)
    ["name"; "version"; "python_requires"; "author"; "author_email"; "license"] = true
  /\ exists spec,
       kwarg "entry_points" setup_kwargs
       = Some (EDict [(EStr "console_scripts", EList [EStr spec])])
       /\ exists n m a, parse_entry_point spec = Some (mkEntryPoint n m (Some a)).
Proof.
  split; [reflexivity |].
  eexists. split; [reflexivity |].
  do 3 eexists. reflexivity.
Qed.

(** C6: no part of the module reads or declares an environment variable:
    nothing is imported from [os], no argument names [os.environ],
    [getenv] or the like, and no call passes an [env] argument. *)
Theorem no_environment_variables :
  concat (map stmt_env_refs setup_py) = [].
Proof. reflexivity. Qed.

(** C7 (as stated, refuted): the [packages] argument of the [setup] call is
    not a constant: it is a [find_packages(...)] call whose value depends on
    the directory tree the manifest is run in. *)
Lemma packages_argument_not_constant :
  kwarg "packages" setup_kwargs
  = Some (ECall "find_packages" [("exclude", EList [EStr "docs"; EStr "tests*"])])
  /\ is_constant (ECall "find_packages" [("exclude", EList [EStr "docs"; EStr "tests*"])]) = false
  /\ option_map d_packages (manifest (Dir "src" false []))
     <> option_map d_packages (manifest sample_tree).
Proof.
  split; [reflexivity |]. split; [reflexivity |].
  rewrite !manifest_value. simpl. discriminate.
Qed.

(** C7 (amended): the file has 18 lines and consists of one import
    statement and one [setup] call; every argument of the call is a
    constant literal except [packages], which is a [find_packages] call
    whose only argument is the constant list [['docs','tests*']]. *)
Theorem manifest_shape :
  length setup_py_lines = 18
  /\ setup_py = [SImportFrom "setuptools" ["setup"; "find_packages"];
                 SExpr (ECall "setup" setup_kwargs)]
  /\ (forall k e, In (k, e) setup_kwargs -> k <> "packages" -> is_constant e = true)
  /\ kwarg "packages" setup_kwargs
     = Some (ECall "find_packages" [("exclude", EList [EStr "docs"; EStr "tests*"])])
  /\ is_constant (EList [EStr "docs"; EStr "tests*"]) = true.
Proof.
  split; [reflexivity |]. split; [reflexivity |].
  split; [| split; reflexivity].
  intros k e H Hk. simpl in H.
  repeat (destruct H as [H | H]; [injection H as <- <-; try reflexivity; congruence |]).
  destruct H.
Qed.

(** C8: the authorship and license fields are ["Marco Peise"],
    ["mp@ise.tu-berlin.de"] and ["MIT License"]; replacing them by any
    strings leaves every other field of the descriptor, and the console
    commands, unchanged. *)
Theorem authorship_no_effect cwd a e l :
  (exists d, manifest cwd = Some d /\ d_author d = "Marco Peise"
     /\ d_author_email d = "mp@ise.tu-berlin.de" /\ d_license d = "MIT License")
  /\ exists d d', manifest cwd = Some d
     /\ setup_descriptor cwd (with_authorship a e l) = Some d'
     /\ d_name d' = d_name d /\ d_version d' = d_version d
     /\ d_python_requires d' = d_python_requires d
     /\ d_packages d' = d_packages d /\ d_entry_points d' = d_entry_points d
     /\ console_commands d' = console_commands d.
Proof.
  split.
  - eexists. rewrite manifest_value. split; [reflexivity |]. repeat split; reflexivity.
  - do 2 eexists. rewrite manifest_value, with_authorship_value.
    split; [reflexivity |]. split; [reflexivity |]. repeat split; reflexivity.
Qed.

(** C9: the exclusion list passed to [find_packages] is [['docs','tests*']];
    a package named ["tests"] is never in the distribution, while
    ["docs.subpkg"] is in it whenever the walk reaches it ([docs] does not
    prune the walk), e.g. in a tree with [docs/subpkg] and [tests]. *)
Theorem exclude_tests_not_docs_subpkg :
  kwarg "packages" setup_kwargs
  = Some (ECall "find_packages" [("exclude", EList [EStr "docs"; EStr "tests*"])])
  /\ (forall cwd, ~ In "tests" (find_packages cwd ["docs"; "tests*"]))
  /\ (forall cwd, In "docs.subpkg" (find_packages cwd ["docs"; "tests*"])
                  <-> In "docs.subpkg" (reached (ALWAYS_EXCLUDE ++ ["docs"; "tests*"]) None cwd))
  /\ pruned (ALWAYS_EXCLUDE ++ ["docs"; "tests*"]) "docs" = false
  /\ find_packages (Dir "src" false [Dir "docs" true [Dir "subpkg" true []]; Dir "tests" true []])
                   ["docs"; "tests*"] = ["docs.subpkg"].
Proof.
  split; [reflexivity |].
  split.
  { intros cwd. rewrite find_packages_manifest, filter_In.
    intros [_ H]. rewrite (proj2 (manifest_exclude_filter "tests")) in H; [discriminate |].
    right; right; right. exists EmptyString. reflexivity. }
  split.
  { intros cwd. rewrite find_packages_manifest, filter_In.
    destruct (filter_call (ALWAYS_EXCLUDE ++ ["docs"; "tests*"]) "docs.subpkg") eqn:E.
    - exfalso. apply manifest_exclude_filter in E.
      destruct E as [H | [[pre H] | [H | [rest H]]]]; try discriminate.
      destruct pre as [| c pre]; [discriminate |].
      apply (f_equal String.length) in H. rewrite string_length_app in H.
      simpl in H. lia.
    - simpl. tauto. }
  split; reflexivity.
Qed.

(** C10: [">=3"] is satisfied by exactly the interpreter versions whose
    major component is at least 3 (3.0 included, no upper bound). *)
Theorem python_requires_major cwd major rest :
  option_map (fun d => satisfies (d_python_requires d) (major :: rest)) (manifest cwd)
  = Some (Some (3 <=? major)%nat).
Proof.
  rewrite manifest_value. cbn [option_map d_python_requires].
  unfold satisfies. cbn [parse_specifier strip lstrip rev_string].
  change (parse_specifier ">=3") with (Some (OpGe, [3])).
  cbn [option_map fst snd]. rewrite compare_release_3.
  f_equal. f_equal.
  destruct (Nat.compare_spec major 3) as [-> | Hlt | Hgt].
  - simpl. destruct (lex rest (repeat 0 (length rest))) eqn:E; try reflexivity.
    exfalso. exact (lex_zeros rest E).
  - cbn [op_holds]. symmetry. apply Nat.leb_gt. exact Hlt.
  - cbn [op_holds]. symmetry. apply Nat.leb_le. lia.
Qed.

(** ** Further properties of the code the manifest runs *)







Lemma filter_contains_incl e1 e2 x :
  incl e1 e2 -> filter_contains e1 x = true -> filter_contains e2 x = true.
Proof.
  unfold filter_contains. intros Hi H. apply existsb_exists in H as [y [Hy Hx]].
  apply existsb_exists. exists y. split; [apply Hi; exact Hy | exact Hx].
Qed.

Lemma filter_call_incl e1 e2 x :
  incl e1 e2 -> filter_call e1 x = true -> filter_call e2 x = true.
Proof.
  unfold filter_call. intros Hi H. apply existsb_exists in H as [y [Hy Hx]].
  apply existsb_exists. exists y. split; [apply Hi; exact Hy | exact Hx].
Qed.

Lemma kept_dir_incl e1 e2 rel d :
  incl e1 e2 -> kept_dir e2 rel d = true -> kept_dir e1 rel d = true.
Proof.
  unfold kept_dir, pruned. intros Hi H.
  apply andb_prop in H as [Hs Hp]. rewrite Hs. simpl.
  apply negb_true_iff in Hp. apply negb_true_iff.
  destruct (filter_contains e1 _) eqn:E1.
  - rewrite (filter_contains_incl e1 e2 _ Hi E1) in Hp. discriminate.
  - destruct (filter_contains e1 (package_of rel (dir_name d) ++ ".*")) eqn:E2; [| reflexivity].
    rewrite (filter_contains_incl e1 e2 _ Hi E2), orb_true_r in Hp. discriminate.
Qed.

Lemma reached_incl e1 e2 root : forall rel,
  incl e1 e2 -> incl (reached e2 rel root) (reached e1 rel root).
Proof.
  induction root as [n b ds IH] using dir_ind'. intros rel Hi q.
  simpl. rewrite !in_app_iff. intros [H | H]; [left; exact H | right].
  apply in_concat in H as [l [Hl Hq]]. apply in_map_iff in Hl as [d [<- Hd]].
  apply in_concat. eexists. split; [apply in_map_iff; exists d; split; [reflexivity | exact Hd] |].
  destruct (kept_dir e2 rel d) eqn:Hk; [| destruct Hq].
  rewrite (kept_dir_incl e1 e2 rel d Hi Hk).
  rewrite Forall_forall in IH. apply (IH d Hd); assumption.
Qed.

(** Passing more exclusion patterns never adds a package to the result. *)
Theorem find_packages_exclude_more cwd ex ex' :
  incl (find_packages cwd (ex ++ ex')) (find_packages cwd ex).
Proof.
  unfold find_packages. rewrite !find_iter_filter. intros q.
  rewrite !filter_In. intros [Hr Hs]. split.
  - refine (reached_incl _ _ cwd None _ q Hr).
    intros x Hx. rewrite !in_app_iff in *. tauto.
  - unfold selected in *. apply andb_prop in Hs as [Hin Hex]. rewrite Hin, andb_true_l.
    apply negb_true_iff in Hex. apply negb_true_iff.
    destruct (filter_call (ALWAYS_EXCLUDE ++ ex) q) eqn:E; [| reflexivity].
    assert (Hb : filter_call (ALWAYS_EXCLUDE ++ ex ++ ex') q = true).
    { apply (filter_call_incl (ALWAYS_EXCLUDE ++ ex)); [| exact E].
      intros x Hx. rewrite !in_app_iff in *. tauto. }
    rewrite Hb in Hex. discriminate.
Qed.

(** [find_packages] lists, in walk order, the packages the pruned walk
    reaches, less those matching an exclusion pattern. *)
Theorem find_packages_filtered_walk cwd ex :
  find_packages cwd ex
  = filter (fun p => negb (filter_call (ALWAYS_EXCLUDE ++ ex) p))
      (reached (ALWAYS_EXCLUDE ++ ex) None cwd).
Proof.
  unfold find_packages. rewrite find_iter_filter. apply filter_ext.
  intros p. unfold selected. unfold filter_call at 1. cbn [existsb].
  rewrite fnmatch_star_any. reflexivity.
Qed.

Lemma string_app_assoc s1 s2 s3 : ((s1 ++ s2) ++ s3 = s1 ++ s2 ++ s3)%string.
Proof. induction s1 as [| c s1 IH]; simpl; [reflexivity | rewrite IH; reflexivity]. Qed.















Lemma lex_snoc0 l1 : forall l2,
  length l1 = length l2 -> lex (l1 ++ [0]) (l2 ++ [0]) = lex l1 l2.
Proof.
  induction l1 as [| x l1 IH]; intros [| y l2] H; try discriminate; [reflexivity |].
  simpl. injection H as H. destruct (Nat.compare x y); try reflexivity. apply IH, H.
Qed.

Lemma length_pad n l : length l <= n -> length (pad n l) = n.
Proof. intros H. unfold pad. rewrite length_app, repeat_length. lia. Qed.

Lemma pad_S n l : length l <= n -> pad (S n) l = pad n l ++ [0].
Proof.
  intros H. unfold pad. rewrite <- app_assoc. f_equal.
  replace (S n - length l) with ((n - length l) + 1) by lia.
  apply repeat_app.
Qed.

Lemma lex_pad_more a b n : forall k,
  length a <= n -> length b <= n ->
  lex (pad (k + n) a) (pad (k + n) b) = lex (pad n a) (pad n b).
Proof.
  induction k as [| k IH]; intros Ha Hb; [reflexivity |].
  simpl. rewrite !pad_S by lia. rewrite lex_snoc0 by (rewrite !length_pad by lia; reflexivity).
  apply IH; assumption.
Qed.

Lemma lex_antisym l1 : forall l2, lex l2 l1 = CompOpp (lex l1 l2).
Proof.
  induction l1 as [| x l1 IH]; intros [| y l2]; try reflexivity.
  simpl. rewrite (Nat.compare_antisym x y).
  destruct (Nat.compare x y); simpl; [apply IH | reflexivity | reflexivity].
Qed.

(** Zero components at the end of a release do not change how it compares
    ([3], [3.0] and [3.0.0] are the same version). *)
Theorem compare_release_trailing_zeros a k b :
  compare_release (a ++ repeat 0 k) b = compare_release a b.
Proof.
  unfold compare_release. rewrite length_app, repeat_length.
  set (n := Nat.max (length a) (length b)).
  set (n' := Nat.max (length a + k) (length b)).
  assert (Hpa : pad n' (a ++ repeat 0 k) = pad n' a).
  { unfold pad. rewrite length_app, repeat_length, <- app_assoc, <- repeat_app.
    f_equal. f_equal. unfold n'. lia. }
  rewrite Hpa. replace n' with ((n' - n) + n) by (unfold n, n'; lia).
  apply lex_pad_more; unfold n; lia.
Qed.

(** Comparing releases is antisymmetric. *)
Theorem compare_release_antisym a b :
  compare_release b a = CompOpp (compare_release a b).
Proof.
  unfold compare_release. rewrite Nat.max_comm. apply lex_antisym.
Qed.







Lemma distinct_NoDup l : distinct l = true -> NoDup l.
Proof.
  induction l as [| x l IH]; simpl; intros H; [constructor |].
  apply andb_prop in H as [Hx H]. constructor; [| apply IH, H].
  intros Hin. apply negb_true_iff in Hx.
  assert (existsb (String.eqb x) l = true) by (apply existsb_exists; exists x; split; [exact Hin | apply String.eqb_refl]).
  congruence.
Qed.

Lemma string_app_nil_r s : (s ++ "")%string = s.
Proof. induction s as [| c s IH]; simpl; [reflexivity | rewrite IH; reflexivity]. Qed.

Lemma has_dot_cons c s : has_dot (String c s) = Ascii.eqb c "."%char || has_dot s.
Proof. reflexivity. Qed.

Lemma segment_inj n1 : forall n2 s1 s2,
  has_dot n1 = false -> has_dot n2 = false -> dotted s1 -> dotted s2 ->
  (n1 ++ s1)%string = (n2 ++ s2)%string -> n1 = n2 /\ s1 = s2.
Proof.
  induction n1 as [| c1 n1 IH]; intros [| c2 n2] s1 s2 H1 H2 D1 D2 E; simpl in E.
  - split; [reflexivity | exact E].
  - subst s1. simpl in D1. subst c2. rewrite has_dot_cons in H2. discriminate.
  - subst s2. simpl in D2. subst c1. rewrite has_dot_cons in H1. discriminate.
  - injection E as <- E. rewrite has_dot_cons in H1, H2.
    apply orb_false_elim in H1 as [_ H1]. apply orb_false_elim in H2 as [_ H2].
    destruct (IH n2 s1 s2 H1 H2 D1 D2 E) as [-> ->]. split; reflexivity.
Qed.

Lemma string_app_cancel_l p : forall s1 s2, (p ++ s1)%string = (p ++ s2)%string -> s1 = s2.
Proof. induction p as [| c p IH]; simpl; intros s1 s2 E; [exact E | injection E as E; apply IH, E]. Qed.

Lemma package_of_inj rel n1 n2 s1 s2 :
  has_dot n1 = false -> has_dot n2 = false -> dotted s1 -> dotted s2 ->
  (package_of rel n1 ++ s1)%string = (package_of rel n2 ++ s2)%string -> n1 = n2 /\ s1 = s2.
Proof.
  intros H1 H2 D1 D2 E. destruct rel as [p |]; simpl in E; [| apply segment_inj; assumption].
  rewrite !string_app_assoc in E. apply string_app_cancel_l in E. simpl in E.
  injection E as E. apply segment_inj; assumption.
Qed.

Lemma not_skipped_no_dot d : skipped d = false -> has_dot (dir_name d) = false.
Proof. unfold skipped. intros H. apply orb_false_elim in H as [H _]. exact H. Qed.

Lemma kept_not_skipped e rel d : kept_dir e rel d = true -> skipped d = false.
Proof. unfold kept_dir. intros H. apply andb_prop in H as [H _]. apply negb_true_iff, H. Qed.

(** Everything the walk reaches below the package [P] is a subpackage of
    [P]. *)
Lemma reached_below e d : forall P q,
  In q (reached e (Some P) d) -> exists t, q = (P ++ "." ++ t)%string.
Proof.
  induction d as [n b ds IH] using dir_ind'. intros P q H.
  simpl in H. apply in_app_iff in H as [H | H].
  - apply in_map_iff in H as [c [<- _]]. exists (dir_name c). reflexivity.
  - apply in_concat in H as [l [Hl Hq]]. apply in_map_iff in Hl as [c [<- Hc]].
    destruct (kept_dir e (Some P) c); [| destruct Hq].
    rewrite Forall_forall in IH. destruct (IH c Hc _ _ Hq) as [t ->].
    exists (dir_name c ++ "." ++ t)%string. simpl. rewrite !string_app_assoc. reflexivity.
Qed.

Lemma group_owner e rel c x :
  In x (group e rel c) ->
  skipped c = false /\ exists s, dotted s /\ x = (package_of rel (dir_name c) ++ s)%string.
Proof.
  unfold group. intros H. apply in_app_iff in H as [H | H].
  - destruct (skipped c); [destruct H |]. destruct H as [<- | []].
    split; [reflexivity |]. exists EmptyString. split; [exact I |].
    symmetry. apply string_app_nil_r.
  - destruct (kept_dir e rel c) eqn:Hk; [| destruct H].
    split; [apply (kept_not_skipped e rel), Hk |].
    destruct (reached_below e c _ _ H) as [t ->].
    exists (String "." t). split; reflexivity.
Qed.

Lemma reached_groups e rel n b ds :
  Permutation (reached e rel (Dir n b ds)) (concat (map (group e rel) ds)).
Proof.
  simpl. induction ds as [| c ds IH]; [reflexivity |].
  unfold group at 1. simpl.
  destruct (skipped c) eqn:Hs; simpl.
  - destruct (kept_dir e rel c) eqn:Hk;
      [apply kept_not_skipped in Hk; congruence | exact IH].
  - apply perm_skip.
    eapply perm_trans; [apply Permutation_app_swap_app |].
    apply Permutation_app_head. exact IH.
Qed.

Lemma NoDup_groups e rel ds :
  NoDup (map dir_name ds) -> Forall (fun c => NoDup (group e rel c)) ds ->
  NoDup (concat (map (group e rel) ds)).
Proof.
  induction ds as [| c ds IH]; intros Hn Hg; simpl; [constructor |].
  inversion Hn as [| ? ? Hc Hn']. inversion Hg as [| ? ? Hgc Hg']. subst.
  apply NoDup_app; [exact Hgc | apply IH; assumption |].
  intros x Hx Hx'. apply in_concat in Hx' as [l [Hl Hx']].
  apply in_map_iff in Hl as [c' [<- Hc']].
  destruct (group_owner e rel c x Hx) as [Hs [s [Ds ->]]].
  destruct (group_owner e rel c' _ Hx') as [Hs' [s' [Ds' E]]].
  destruct (package_of_inj rel (dir_name c) (dir_name c') s s') as [En _];
    try apply not_skipped_no_dot; try assumption.
  apply Hc. rewrite En. apply in_map, Hc'.
Qed.

Lemma reached_NoDup e d : forall rel,
  names_distinct d = true -> NoDup (reached e rel d).
Proof.
  induction d as [n b ds IH] using dir_ind'. intros rel Hd.
  simpl in Hd. apply andb_prop in Hd as [Hn Hall].
  eapply Permutation_NoDup; [symmetry; apply reached_groups |].
  apply NoDup_groups; [apply distinct_NoDup, Hn |].
  rewrite Forall_forall in IH |- *. rewrite forallb_forall in Hall.
  intros c Hc. unfold group.
  destruct (skipped c) eqn:Hs; simpl.
  - unfold kept_dir. rewrite Hs. constructor.
  - destruct (kept_dir e rel c) eqn:Hk; [| repeat constructor; intros []].
    constructor; [| apply IH; [exact Hc | apply Hall, Hc]].
    intros Hin. destruct (reached_below e c _ _ Hin) as [t Et].
    apply (f_equal String.length) in Et. rewrite !string_length_app in Et. simpl in Et. lia.
Qed.

(** When sibling directories have distinct names, [find_packages] never
    lists a package twice. *)
Theorem find_packages_NoDup cwd ex :
  names_distinct cwd = true -> NoDup (find_packages cwd ex).
Proof.
  intros H. rewrite find_packages_filtered_walk.
  apply NoDup_filter, reached_NoDup, H.
Qed.

Lemma find_packages_NoDup_witness :
  names_distinct sample_tree = true
  /\ NoDup (find_packages sample_tree ["docs"; "tests*"]).
Proof. split; [reflexivity | apply find_packages_NoDup; reflexivity]. Defined.
